(** * Backend/Server.py: the interview backend, embedded and verified

    The server is a thin orchestration layer over three remote services
    (speech recognition, chat completion, speech synthesis).  The remote
    services are the parameters of the development; everything the
    module itself does (schemas, the company table, the helper functions
    and the four handlers) is transcribed below in the order of the
    source file. *)

From Stdlib Require Import Strings.String Strings.Ascii Strings.Byte.
From stdpp Require Import base option list strings gmap fin_maps.

Local Open Scope string_scope.
Local Open Scope list_scope.

(** ** Python values used by the module *)

(** Exceptions that can travel through the module. *)
Inductive exn : Type :=
| UnknownValueError
| RequestError
| IndexError
| KeyError (key : string)
| ServiceError (detail : string)
| RequestValidationError (missing : list string).

Inductive result (A : Type) : Type :=
| Ok (a : A)
| Raise (e : exn).
Arguments Ok {A} a.
Arguments Raise {A} e.

(** A [dict] with string keys and string values. *)
Abbreviation dict := (gmap string string).

(** [d.get(key, fallback)] *)
Definition dict_get (d : dict) (key fallback : string) : string :=
  default fallback (d !! key).

(** [os.getenv(name)] and [os.getenv(name, fallback)] *)
Definition getenv (environ : dict) (name : string) : option string :=
  environ !! name.
Definition getenv_default (environ : dict) (name fallback : string) : string :=
  default fallback (environ !! name).

(** [needle in haystack] on [str]. *)
Fixpoint contains (haystack needle : string) : bool :=
  String.prefix needle haystack
  || match haystack with
     | EmptyString => false
     | String _ rest => contains rest needle
     end.

(** The line feed of the f-strings. *)
Definition LF : string := String (ascii_of_nat 10) EmptyString.

(** ** io.BytesIO *)

Module BytesIO.
Record t : Type := mk { buffer : list byte; position : nat }.

Definition new : t := {| buffer := []; position := 0 |}.

(** [write] overwrites from the current position, zero-filling a gap,
    and advances the position past what it wrote. *)
Definition write (b : t) (data : list byte) : t :=
  {| buffer := take (position b) (buffer b)
               ++ replicate (position b - length (buffer b)) x00
               ++ data
               ++ drop (position b + length data) (buffer b);
     position := position b + length data |}.

Definition seek (b : t) (offset : nat) : t :=
  {| buffer := buffer b; position := offset |}.

(** What a reader obtains by consuming the object to its end. *)
Definition remaining (b : t) : list byte := drop (position b) (buffer b).
End BytesIO.

(** ** The remote providers *)

(** A request handed to [client.chat.completions.create]. *)
Record ChatRequest : Type := {
  api_key : option string;
  model : string;
  messages : list dict
}.

Record Choice : Type := { message : dict }.
Record ChatResponse : Type := { choices : list Choice }.

(** What [Recognizer.recognize_google] does with a piece of audio: the
    transcript, or one of the two exception classes it declares. *)
Inductive recognition : Type :=
| Recognized (text : string)
| Unintelligible
| Unreachable.

(** The world outside the process.  Every provider may answer
    differently from one call to the next, so each is a function of the
    calls made so far. *)
Record Services : Type := {
  environ : dict;
  microphone : nat -> list byte;
  google_speech : list byte -> recognition;
  together : list ChatRequest -> ChatRequest -> result ChatResponse;
  gtts : list (string * string) -> string -> string -> result (list byte)
}.

(** ** Process state *)

Record State : Type := {
  profiles : dict;                    (* the module global company_profiles *)
  stdout : list string;
  captures : nat;                     (* utterances taken from the microphone *)
  chat_log : list ChatRequest;        (* requests sent to the completion API *)
  tts_log : list (string * string)    (* (text, lang) sent to the synthesiser *)
}.

(** ** The monad of module code: state and exceptions *)

Definition M (A : Type) : Type := State -> result A * State.

#[global] Instance M_ret : MRet M := fun A a st => (Ok a, st).
#[global] Instance M_bind : MBind M := fun A B f c st =>
  match c st with
  | (Ok a, st') => f a st'
  | (Raise e, st') => (Raise e, st')
  end.

Definition raise {A} (e : exn) : M A := fun st => (Raise e, st).
Definition lift {A} (r : result A) : M A := fun st => (r, st).

(** [try: body  except ...: ...], where [handler] returns [None] for the
    exception classes that no clause names. *)
Definition try_except {A} (body : M A) (handler : exn -> option (M A)) : M A :=
  fun st =>
    match body st with
    | (Ok a, st') => (Ok a, st')
    | (Raise e, st') =>
        match handler e with
        | Some h => h st'
        | None => (Raise e, st')
        end
    end.

(** [print(line)] *)
Definition print (line : string) : M unit := fun st =>
  (Ok tt, {| profiles := profiles st; stdout := stdout st ++ [line];
             captures := captures st; chat_log := chat_log st;
             tts_log := tts_log st |}).

(** [seq[i]] and [d[key]] *)
Definition index {A} (l : list A) (i : nat) : M A :=
  match l !! i with
  | Some a => mret a
  | None => raise IndexError
  end.
Definition subscript (d : dict) (key : string) : M string :=
  match d !! key with
  | Some v => mret v
  | None => raise (KeyError key)
  end.

(** ** Schemas *)

(** The body of a request as the validator sees it: the fields that the
    client supplied, all of them declared [str] by the schemas below.  A
    field the client left out has no entry; a body that supplies nothing
    is the empty map; entries under other names are ignored. *)
Abbreviation payload := (gmap string string).

(** One declared field of a [BaseModel]: [name: str = fallback], or
    [name: str] when it has no default. *)
Definition field (body : payload) (name : string) (fallback : option string)
  : list string + string :=
  match body !! name with
  | Some v => inr v
  | None =>
      match fallback with
      | Some d => inr d
      | None => inl [name]
      end
  end.

(** Names of the fields a validation found missing. *)
Definition missing_of {A} (f : list string + A) : list string :=
  match f with inl names => names | inr _ => [] end.

Module QuestionRequest.
Record t : Type := mk { company : string; role : string }.

Definition validate (body : payload) : result t :=
  match field body "company" (Some "General"),
        field body "role" (Some "Engineer") with
  | inr c, inr r => Ok {| company := c; role := r |}
  | fc, fr => Raise (RequestValidationError (missing_of fc ++ missing_of fr))
  end.
End QuestionRequest.

Module EvalRequest.
Record t : Type := mk { company : string; question : string; answer : string }.

Definition validate (body : payload) : result t :=
  match field body "company" (Some "General"),
        field body "question" None,
        field body "answer" None with
  | inr c, inr q, inr a => Ok {| company := c; question := q; answer := a |}
  | fc, fq, fa =>
      Raise (RequestValidationError
               (missing_of fc ++ missing_of fq ++ missing_of fa))
  end.
End EvalRequest.

(** ** Company profiles *)

Definition company_profiles : dict :=
  {[ "Google" := "Focus on algorithms, system design, and problem-solving depth.";
     "Infosys" := "Practical coding, OOP basics, and database concepts.";
     "Microsoft" := "System design, product sense, and engineering trade-offs.";
     "TCS" := "Practical coding, aptitude questions, and basic problem-solving." ]}.

(** The process right after the module has been imported. *)
Definition startup : State :=
  {| profiles := company_profiles; stdout := []; captures := 0;
     chat_log := []; tts_log := [] |}.

(** ** Responses *)

Inductive Response : Type :=
| Dict (content : dict)
| JSONResponse (content : dict)
| StreamingResponse (body : BytesIO.t) (media_type : string).

(** The JSON object that reaches the client, when the response is one. *)
Definition json (r : Response) : option dict :=
  match r with
  | Dict d | JSONResponse d => Some d
  | StreamingResponse _ _ => None
  end.

(** ** The module body, over a fixed outside world *)

Section Server.
Variable svc : Services.

(** *** Configuration *)

Definition TOGETHER_API_KEY : option string :=
  getenv (environ svc) "TOGETHER_API_KEY".
Definition MODEL_NAME : string :=
  getenv_default (environ svc) "MODEL_NAME" "deepseek-ai/DeepSeek-R1".

(** *** Calls that leave the process *)

(** [r.listen(source)]: the next utterance from the microphone. *)
Definition listen : M (list byte) := fun st =>
  (Ok (microphone svc (captures st)),
   {| profiles := profiles st; stdout := stdout st;
      captures := S (captures st); chat_log := chat_log st;
      tts_log := tts_log st |}).

(** [r.recognize_google(audio)] *)
Definition recognize_google (audio : list byte) : M string :=
  match google_speech svc audio with
  | Recognized text => mret text
  | Unintelligible => raise UnknownValueError
  | Unreachable => raise RequestError
  end.

(** [client.chat.completions.create(model=..., messages=...)] *)
Definition chat_completions_create (model : string) (messages : list dict)
  : M ChatResponse := fun st =>
  let request := {| api_key := TOGETHER_API_KEY; model := model;
                    messages := messages |} in
  (together svc (chat_log st) request,
   {| profiles := profiles st; stdout := stdout st;
      captures := captures st; chat_log := chat_log st ++ [request];
      tts_log := tts_log st |}).

(** [gTTS(text=text, lang=lang).write_to_fp(fp)] *)
Definition gTTS_write_to_fp (text lang : string) (fp : BytesIO.t)
  : M BytesIO.t := fun st =>
  let st' := {| profiles := profiles st; stdout := stdout st;
                captures := captures st; chat_log := chat_log st;
                tts_log := tts_log st ++ [(text, lang)] |} in
  match gtts svc (tts_log st) text lang with
  | Ok audio => (Ok (BytesIO.write fp audio), st')
  | Raise e => (Raise e, st')
  end.

(** *** Helper functions *)

Definition capture_voice_text : M string :=
  print "Speak now...";;
  audio ← listen;
  try_except
    (text ← recognize_google audio;
     print ("You said: " +:+ text);;
     mret text)
    (fun e =>
       match e with
       | UnknownValueError => Some (mret "Sorry, I could not understand.")
       | RequestError => Some (mret "Speech recognition service failed.")
       | _ => None
       end).

Definition ask_together_ai (prompt : string) : M string :=
  response ← chat_completions_create MODEL_NAME
               [ {[ "role" := "user"; "content" := prompt ]} ];
  first ← index (choices response) 0;
  subscript (message first) "content".

Definition text_to_audio_bytes (text : string) : M BytesIO.t :=
  buf ← gTTS_write_to_fp text "en" BytesIO.new;
  mret (BytesIO.seek buf 0).

(** *** Endpoints *)

(** [company_profiles.get(key, fallback)] on the module global. *)
Definition company_profiles_get (key fallback : string) : M string :=
  fun st => (Ok (dict_get (profiles st) key fallback), st).

Definition ask_prompt (request : QuestionRequest.t) (voice_text : string)
  : string :=
  "You are interviewing for " +:+ QuestionRequest.role request +:+ " at "
  +:+ QuestionRequest.company request +:+ ". Question: " +:+ voice_text.

Definition ask_ai (request : QuestionRequest.t) : M Response :=
  voice_text ← capture_voice_text;
  let prompt := ask_prompt request voice_text in
  ai_reply ← ask_together_ai prompt;
  audio_buf ← text_to_audio_bytes ai_reply;
  mret (Dict {[ "user_speech" := voice_text;
                "ai_reply_text" := ai_reply;
                "ai_reply_audio" := "/speak" ]}).

Definition speak : M Response :=
  let sample_text := "This is a demo speech reply." in
  audio_buf ← text_to_audio_bytes sample_text;
  mret (StreamingResponse audio_buf "audio/mpeg").

Definition evaluate_prompt (req : EvalRequest.t) (style : string) : string :=
  "Company: " +:+ EvalRequest.company req +:+ ", Style: " +:+ style +:+ LF
  +:+ "Question: " +:+ EvalRequest.question req +:+ LF
  +:+ "Answer: " +:+ EvalRequest.answer req +:+ LF +:+ LF
  +:+ "Evaluate correctness (correct/partial/incorrect), clarity, and suggest improvement. "
  +:+ "Return JSON with fields correctness, explanation, improvements.".

Definition evaluate_answer (req : EvalRequest.t) : M Response :=
  style ← company_profiles_get (EvalRequest.company req) "Balanced.";
  let prompt := evaluate_prompt req style in
  ai_eval ← ask_together_ai prompt;
  mret (JSONResponse {[ "evaluation" := ai_eval ]}).

Definition questions_prompt (req : QuestionRequest.t) (style : string)
  : string :=
  "Generate 5 interview questions for " +:+ QuestionRequest.role req
  +:+ " role at " +:+ QuestionRequest.company req +:+ ". "
  +:+ "Company style: " +:+ style +:+ ". "
  +:+ "Return JSON array with fields id, question, type, hint.".

Definition generate_questions (req : QuestionRequest.t) : M Response :=
  style ← company_profiles_get (QuestionRequest.company req)
            "Balanced technical + behavioral.";
  let prompt := questions_prompt req style in
  questions ← ask_together_ai prompt;
  mret (JSONResponse {[ "company" := QuestionRequest.company req;
                        "role" := QuestionRequest.role req;
                        "questions" := questions ]}).

(** *** Routing *)

(** What arrives with an HTTP request besides its method and path. *)
Record HttpRequest : Type := { query : dict; body : payload }.

(** [@app.post(path)] over a handler with one schema parameter: the body
    is validated first, and the handler runs on the validated object. *)
Definition post {A} (validate : payload -> result A)
    (handler : A -> M Response) (http : HttpRequest) : M Response :=
  req ← lift (validate (body http));
  handler req.

(** [@app.get(path)] over a handler without parameters. *)
Definition get (handler : M Response) (http : HttpRequest) : M Response :=
  handler.

Definition POST_ask := post QuestionRequest.validate ask_ai.
Definition GET_speak := get speak.
Definition POST_evaluate_answer := post EvalRequest.validate evaluate_answer.
Definition POST_generate_questions :=
  post QuestionRequest.validate generate_questions.

End Server.

(** ** Test doubles *)

(** A provider that sends the content of the first message back as the
    content of its only choice. *)
Definition echo_together (log : list ChatRequest) (request : ChatRequest)
  : result ChatResponse :=
  match messages request with
  | m :: _ =>
      match m !! "content" with
      | Some prompt =>
          Ok {| choices :=
                  [ {| message := {[ "role" := "assistant";
                                     "content" := prompt ]} |} ] |}
      | None => Raise (ServiceError "no content")
      end
  | [] => Raise (ServiceError "no messages")
  end.

(** A recogniser that understands nothing, an echoing completion
    provider and a synthesiser that returns three fixed bytes. *)
Definition stub : Services :=
  {| environ := ∅;
     microphone := fun _ => [];
     google_speech := fun _ => Unintelligible;
     together := echo_together;
     gtts := fun _ _ _ => Ok [x49; x44; x33] |}.

Definition empty_request : HttpRequest := {| query := ∅; body := ∅ |}.

(** The four routes of the application. *)
Inductive endpoint : Type := Ask | Speak | EvaluateAnswer | GenerateQuestions.

Definition dispatch (svc : Services) (e : endpoint) : HttpRequest -> M Response :=
  match e with
  | Ask => POST_ask svc
  | Speak => GET_speak svc
  | EvaluateAnswer => POST_evaluate_answer svc
  | GenerateQuestions => POST_generate_questions svc
  end.

(** The process state after serving one request, whatever its outcome,
    and after serving a whole sequence of them since startup. *)
Definition serve (svc : Services) (st : State) (r : endpoint * HttpRequest)
  : State :=
  (dispatch svc r.1 r.2 st).2.

Definition served (svc : Services) (rs : list (endpoint * HttpRequest))
  : State :=
  fold_left (serve svc) rs startup.

(** The request that [ask_together_ai] hands to the provider. *)
Definition user_turn (svc : Services) (prompt : string) : ChatRequest :=
  {| api_key := TOGETHER_API_KEY svc;
     model := MODEL_NAME svc;
     messages := [ {[ "role" := "user"; "content" := prompt ]} ] |}.

(** Providers that answer every call the server makes: the completion
    API with at least one choice that carries a content, the synthesiser
    with audio. *)
Definition responsive (svc : Services) : Prop :=
  (∀ log prompt, ∃ first rest text,
      together svc log (user_turn svc prompt)
      = Ok {| choices := first :: rest |}
      ∧ message first !! "content" = Some text)
  ∧ (∀ log text lang, ∃ audio, gtts svc log text lang = Ok audio).

(** The completion client hands every prompt back unchanged. *)
Definition echoes (svc : Services) : Prop :=
  ∀ prompt st, (ask_together_ai svc prompt st).1 = Ok prompt.

(** ** Sessions and further test doubles *)

(** Whether serving a request reaches the completion client: /speak has
    no such call, /evaluate-answer only for a body that validates. *)
Definition calls_completion (r : endpoint * HttpRequest) : bool :=
  match r.1 with
  | Speak => false
  | EvaluateAnswer =>
      match EvalRequest.validate (body r.2) with
      | Ok _ => true
      | Raise _ => false
      end
  | Ask | GenerateQuestions => true
  end.

(** Whether serving a request listens on the microphone. *)
Definition listens (r : endpoint * HttpRequest) : bool :=
  match r.1 with
  | Ask => true
  | _ => false
  end.

(** Whether serving a request can reach the synthesiser at all. *)
Definition may_synthesise (r : endpoint * HttpRequest) : bool :=
  match r.1 with
  | Ask | Speak => true
  | _ => false
  end.

(** The utterance is recognised as the very words of the first sentinel. *)
Definition parrot : Services :=
  {| environ := ∅;
     microphone := fun _ => [];
     google_speech := fun _ => Recognized "Sorry, I could not understand.";
     together := echo_together;
     gtts := fun _ _ _ => Ok [x49; x44; x33] |}.


(** * Properties *)

(** ** Running the monad *)

Lemma run_bind {A B} (c : M A) (f : A -> M B) (st : State) :
  (c ≫= f) st =
  match c st with
  | (Ok a, st') => f a st'
  | (Raise e, st') => (Raise e, st')
  end.
Proof. reflexivity. Qed.

Lemma run_ret {A} (a : A) (st : State) : mret (M := M) a st = (Ok a, st).
Proof. reflexivity. Qed.

(** ** What module code leaves alone: the company table *)

Definition keeps_profiles {A} (c : M A) : Prop :=
  ∀ st, profiles (c st).2 = profiles st.

Create HintDb frame discriminated.

Lemma keeps_ret {A} (a : A) : keeps_profiles (mret a).
Proof. by intros st. Qed.

Lemma keeps_raise {A} (e : exn) : keeps_profiles (raise (A := A) e).
Proof. by intros st. Qed.

Lemma keeps_lift {A} (r : result A) : keeps_profiles (lift r).
Proof. by intros st. Qed.

Lemma keeps_bind {A B} (c : M A) (f : A -> M B) :
  keeps_profiles c -> (∀ a, keeps_profiles (f a)) -> keeps_profiles (c ≫= f).
Proof.
  intros Hc Hf st. rewrite run_bind.
  specialize (Hc st). destruct (c st) as [[a | e] st']; simpl in *.
  - by rewrite Hf.
  - done.
Qed.

Lemma keeps_try_except {A} (body : M A) (handler : exn -> option (M A)) :
  keeps_profiles body ->
  (∀ e h, handler e = Some h -> keeps_profiles h) ->
  keeps_profiles (try_except body handler).
Proof.
  intros Hb Hh st. unfold try_except.
  specialize (Hb st). destruct (body st) as [[a | e] st']; simpl in *; [done |].
  destruct (handler e) as [h |] eqn:He; [| done].
  by rewrite (Hh e h He).
Qed.

Lemma keeps_print (line : string) : keeps_profiles (print line).
Proof. by intros st. Qed.

Lemma keeps_index {A} (l : list A) (i : nat) : keeps_profiles (index l i).
Proof. intros st. unfold index. by destruct (l !! i). Qed.

Lemma keeps_subscript (d : dict) (key : string) :
  keeps_profiles (subscript d key).
Proof. intros st. unfold subscript. by destruct (d !! key). Qed.

Lemma keeps_listen svc : keeps_profiles (listen svc).
Proof. by intros st. Qed.

Lemma keeps_recognize_google svc audio :
  keeps_profiles (recognize_google svc audio).
Proof. intros st. unfold recognize_google. by destruct (google_speech svc audio). Qed.

Lemma keeps_chat_completions_create svc model messages :
  keeps_profiles (chat_completions_create svc model messages).
Proof. by intros st. Qed.

Lemma keeps_gTTS_write_to_fp svc text lang fp :
  keeps_profiles (gTTS_write_to_fp svc text lang fp).
Proof.
  intros st. unfold gTTS_write_to_fp.
  by destruct (gtts svc (tts_log st) text lang).
Qed.

Lemma keeps_company_profiles_get key fallback :
  keeps_profiles (company_profiles_get key fallback).
Proof. by intros st. Qed.

#[local] Hint Resolve keeps_ret keeps_raise keeps_lift keeps_bind keeps_print
  keeps_index keeps_subscript keeps_listen keeps_recognize_google
  keeps_chat_completions_create keeps_gTTS_write_to_fp
  keeps_company_profiles_get : frame.

Lemma keeps_capture_voice_text svc : keeps_profiles (capture_voice_text svc).
Proof.
  unfold capture_voice_text.
  apply keeps_bind; [auto with frame |]; intros _.
  apply keeps_bind; [auto with frame |]; intros audio.
  apply keeps_try_except; [auto 10 with frame |].
  intros e h He. destruct e; inversion He; auto with frame.
Qed.

Lemma keeps_ask_together_ai svc prompt :
  keeps_profiles (ask_together_ai svc prompt).
Proof. unfold ask_together_ai. auto 10 with frame. Qed.

Lemma keeps_text_to_audio_bytes svc text :
  keeps_profiles (text_to_audio_bytes svc text).
Proof. unfold text_to_audio_bytes. auto 10 with frame. Qed.

#[local] Hint Resolve keeps_capture_voice_text keeps_ask_together_ai
  keeps_text_to_audio_bytes : frame.

Lemma keeps_dispatch svc e http : keeps_profiles (dispatch svc e http).
Proof.
  destruct e; cbv [dispatch POST_ask GET_speak POST_evaluate_answer
    POST_generate_questions post get ask_ai speak evaluate_answer
    generate_questions]; auto 20 with frame.
Qed.

(** ** The helper functions, run on an arbitrary state *)

Lemma QuestionRequest_validate_defaults (body : payload) :
  QuestionRequest.validate body =
  Ok {| QuestionRequest.company := default "General" (body !! "company");
        QuestionRequest.role := default "Engineer" (body !! "role") |}.
Proof.
  unfold QuestionRequest.validate, field.
  by destruct (body !! "company"), (body !! "role").
Qed.

Lemma capture_voice_text_returns svc st :
  ∃ st',
    capture_voice_text svc st =
    (Ok match google_speech svc (microphone svc (captures st)) with
        | Recognized text => text
        | Unintelligible => "Sorry, I could not understand."
        | Unreachable => "Speech recognition service failed."
        end, st').
Proof.
  cbv [capture_voice_text try_except recognize_google listen print
       mbind M_bind mret M_ret raise captures].
  destruct (google_speech svc _); eexists; reflexivity.
Qed.

Lemma ask_together_ai_run svc prompt st :
  ask_together_ai svc prompt st =
  (match together svc (chat_log st) (user_turn svc prompt) with
   | Ok response =>
       match choices response with
       | first :: _ =>
           match message first !! "content" with
           | Some text => Ok text
           | None => Raise (KeyError "content")
           end
       | [] => Raise IndexError
       end
   | Raise e => Raise e
   end,
   {| profiles := profiles st; stdout := stdout st; captures := captures st;
      chat_log := chat_log st ++ [user_turn svc prompt];
      tts_log := tts_log st |}).
Proof.
  unfold ask_together_ai. rewrite run_bind.
  unfold chat_completions_create. fold (user_turn svc prompt).
  destruct (together svc (chat_log st) (user_turn svc prompt))
    as [[[| first rest]] | e]; [reflexivity | | reflexivity].
  rewrite run_bind. cbn [choices index lookup list_lookup].
  rewrite run_ret. unfold subscript. cbn [message].
  by destruct (message first !! "content").
Qed.

Lemma text_to_audio_bytes_run svc text st :
  text_to_audio_bytes svc text st =
  (match gtts svc (tts_log st) text "en" with
   | Ok audio => Ok {| BytesIO.buffer := audio; BytesIO.position := 0 |}
   | Raise e => Raise e
   end,
   {| profiles := profiles st; stdout := stdout st; captures := captures st;
      chat_log := chat_log st; tts_log := tts_log st ++ [(text, "en")] |}).
Proof.
  unfold text_to_audio_bytes. rewrite run_bind. unfold gTTS_write_to_fp.
  destruct (gtts svc (tts_log st) text "en") as [audio | e]; [| reflexivity].
  rewrite run_ret. unfold BytesIO.seek, BytesIO.write, BytesIO.new. simpl.
  by rewrite drop_nil, app_nil_r.
Qed.


Lemma text_to_audio_bytes_responsive svc text st :
  responsive svc -> ∃ buf st', text_to_audio_bytes svc text st = (Ok buf, st').
Proof.
  intros [_ Htts]. rewrite text_to_audio_bytes_run.
  destruct (Htts (tts_log st) text "en") as [audio ->]. by eexists _, _.
Qed.

(** ** The handlers, taken apart *)



Lemma post_QuestionRequest (handler : QuestionRequest.t -> M Response)
    (http : HttpRequest) (st : State) :
  post QuestionRequest.validate handler http st =
  handler {| QuestionRequest.company :=
               default "General" (body http !! "company");
             QuestionRequest.role :=
               default "Engineer" (body http !! "role") |} st.
Proof.
  unfold post. rewrite run_bind, QuestionRequest_validate_defaults.
  reflexivity.
Qed.

Lemma stub_responsive : responsive stub.
Proof.
  split.
  - intros log prompt. by eexists _, _, _.
  - intros log text lang. by eexists.
Qed.

Lemma evaluate_answer_run svc req st :
  evaluate_answer svc req st =
  match ask_together_ai svc
          (evaluate_prompt req
             (dict_get (profiles st) (EvalRequest.company req) "Balanced."))
          st with
  | (Ok ai_eval, st') => (Ok (JSONResponse {[ "evaluation" := ai_eval ]}), st')
  | (Raise e, st') => (Raise e, st')
  end.
Proof.
  unfold evaluate_answer. rewrite run_bind. unfold company_profiles_get.
  rewrite run_bind. by destruct (ask_together_ai svc _ st) as [[? | ?] ?].
Qed.

Lemma generate_questions_run svc req st :
  generate_questions svc req st =
  match ask_together_ai svc
          (questions_prompt req
             (dict_get (profiles st) (QuestionRequest.company req)
                "Balanced technical + behavioral."))
          st with
  | (Ok questions, st') =>
      (Ok (JSONResponse {[ "company" := QuestionRequest.company req;
                           "role" := QuestionRequest.role req;
                           "questions" := questions ]}), st')
  | (Raise e, st') => (Raise e, st')
  end.
Proof.
  unfold generate_questions. rewrite run_bind. unfold company_profiles_get.
  rewrite run_bind. by destruct (ask_together_ai svc _ st) as [[? | ?] ?].
Qed.


Lemma evaluate_answer_state svc req st :
  (evaluate_answer svc req st).2
  = (ask_together_ai svc
       (evaluate_prompt req
          (dict_get (profiles st) (EvalRequest.company req) "Balanced."))
       st).2.
Proof.
  rewrite evaluate_answer_run.
  by destruct (ask_together_ai svc _ st) as [[? | ?] ?].
Qed.

Lemma generate_questions_state svc req st :
  (generate_questions svc req st).2
  = (ask_together_ai svc
       (questions_prompt req
          (dict_get (profiles st) (QuestionRequest.company req)
             "Balanced technical + behavioral."))
       st).2.
Proof.
  rewrite generate_questions_run.
  by destruct (ask_together_ai svc _ st) as [[? | ?] ?].
Qed.


(** ** Substrings *)

Lemma prefix_append (x rest : string) : String.prefix x (x +:+ rest) = true.
Proof.
  induction x as [| a x IH]; [by destruct rest |].
  simpl. by destruct (ascii_dec a a).
Qed.

Lemma contains_unfold (haystack needle : string) :
  contains haystack needle =
  String.prefix needle haystack
  || match haystack with
     | EmptyString => false
     | String _ rest => contains rest needle
     end.
Proof. by destruct haystack. Qed.

Lemma contains_here (x rest : string) : contains (x +:+ rest) x = true.
Proof. by rewrite contains_unfold, prefix_append. Qed.

Lemma contains_later (skipped haystack x : string) :
  contains haystack x = true -> contains (skipped +:+ haystack) x = true.
Proof.
  intros H. induction skipped as [| a skipped IH]; [done |].
  simpl. rewrite IH. apply orb_true_r.
Qed.

(** ** Concrete runs on the test doubles *)

Example ask_on_stub :
  (POST_ask stub empty_request startup).1
  = Ok (Dict {[ "user_speech" := "Sorry, I could not understand.";
                "ai_reply_text" :=
                  "You are interviewing for Engineer at General. Question: Sorry, I could not understand.";
                "ai_reply_audio" := "/speak" ]}).
Proof. vm_compute. reflexivity. Qed.

Example speak_on_stub :
  (GET_speak stub empty_request startup).1
  = Ok (StreamingResponse
          {| BytesIO.buffer := [x49; x44; x33]; BytesIO.position := 0 |}
          "audio/mpeg").
Proof. reflexivity. Qed.

Example evaluate_rejects_empty_body :
  POST_evaluate_answer stub empty_request startup
  = (Raise (RequestValidationError ["question"; "answer"]), startup).
Proof. reflexivity. Qed.

Example generate_for_known_company :
  (POST_generate_questions stub
     {| query := ∅; body := {[ "company" := "Google"; "role" := "SRE" ]} |}
     startup).1
  = Ok (JSONResponse
          {[ "company" := "Google";
             "role" := "SRE";
             "questions" :=
               "Generate 5 interview questions for SRE role at Google. Company style: Focus on algorithms, system design, and problem-solving depth.. Return JSON array with fields id, question, type, hint." ]}).
Proof. vm_compute. reflexivity. Qed.

Example write_then_seek :
  BytesIO.remaining (BytesIO.seek (BytesIO.write BytesIO.new [x49; x44]) 0)
  = [x49; x44]
  ∧ BytesIO.remaining (BytesIO.write BytesIO.new [x49; x44]) = [].
Proof. split; reflexivity. Qed.

(** * The claims *)







(** C4. /speak does not look at its input: two invocations that differ
    only in the request behave the same.  The one text it sends to the
    synthesiser is "This is a demo speech reply."; the response is a
    stream of media type audio/mpeg whose bytes are the audio the
    synthesiser produced for that sentence (and a synthesiser failure
    is passed on unchanged). *)
Theorem C4_speak_is_fixed_demo_audio
    (svc : Services) (http http' : HttpRequest) (st : State) :
  GET_speak svc http st = GET_speak svc http' st
  ∧ tts_log (GET_speak svc http st).2
    = tts_log st ++ [("This is a demo speech reply.", "en")]
  ∧ match (GET_speak svc http st).1,
          gtts svc (tts_log st) "This is a demo speech reply." "en" with
    | Ok resp, Ok audio =>
        ∃ buf, resp = StreamingResponse buf "audio/mpeg"
               ∧ BytesIO.remaining buf = audio
    | Raise e, Raise e' => e = e'
    | _, _ => False
    end.
Proof.
  split; [reflexivity |].
  unfold GET_speak, get, speak. rewrite run_bind, text_to_audio_bytes_run.
  destruct (gtts svc (tts_log st) _ "en") as [audio | e];
    (split; [reflexivity |]); [| reflexivity].
  rewrite run_ret. by eexists.
Qed.

(** C5. When the completion client echoes its prompt, /evaluate-answer
    responds, and the string under the evaluation field contains the
    question text and the answer text of the request verbatim. *)
Theorem C5_evaluation_contains_question_and_answer
    (svc : Services) (req : EvalRequest.t) (st : State) :
  echoes svc ->
  ∃ ai_eval st',
    evaluate_answer svc req st
    = (Ok (JSONResponse {[ "evaluation" := ai_eval ]}), st')
    ∧ contains ai_eval (EvalRequest.question req) = true
    ∧ contains ai_eval (EvalRequest.answer req) = true.
Proof.
  intros Hecho. rewrite evaluate_answer_run.
  set (style := dict_get _ _ _).
  specialize (Hecho (evaluate_prompt req style) st).
  destruct (ask_together_ai svc _ st) as [[ai_eval | e] st']; [| done].
  simpl in Hecho. injection Hecho as ->.
  eexists _, _. split; [reflexivity |].
  unfold evaluate_prompt. split.
  - do 6 apply contains_later. apply contains_here.
  - do 9 apply contains_later. apply contains_here.
Qed.

Lemma C5_witness :
  echoes stub
  ∧ ∃ ai_eval st',
      evaluate_answer stub
        {| EvalRequest.company := "TCS";
           EvalRequest.question := "What is a heap?";
           EvalRequest.answer := "A tree." |} startup
      = (Ok (JSONResponse {[ "evaluation" := ai_eval ]}), st')
      ∧ contains ai_eval "What is a heap?" = true
      ∧ contains ai_eval "A tree." = true.
Proof.
  assert (Hecho : echoes stub) by (intros prompt st; reflexivity).
  split; [exact Hecho |].
  exact (C5_evaluation_contains_question_and_answer stub
           {| EvalRequest.company := "TCS";
              EvalRequest.question := "What is a heap?";
              EvalRequest.answer := "A tree." |} startup Hecho).
Defined.

(** C6. Whatever the completion client does, every response of
    /generate-questions maps company to the company of the request and
    role to its role; and the handler does respond whenever the
    completion client returns a text. *)
Theorem C6_generate_questions_echoes_request
    (svc : Services) (req : QuestionRequest.t) (st : State) :
  (∀ resp st', generate_questions svc req st = (Ok resp, st') ->
     ∃ d, json resp = Some d
          ∧ d !! "company" = Some (QuestionRequest.company req)
          ∧ d !! "role" = Some (QuestionRequest.role req))
  ∧ (∀ questions st',
       ask_together_ai svc
         (questions_prompt req
            (dict_get (profiles st) (QuestionRequest.company req)
               "Balanced technical + behavioral.")) st
       = (Ok questions, st') ->
       ∃ resp, generate_questions svc req st = (Ok resp, st')).
Proof.
  rewrite generate_questions_run. split.
  - intros resp st'.
    destruct (ask_together_ai svc _ st) as [[questions | e] st1]; [| done].
    intros [= <- <-]. eexists. by split_and!.
  - intros questions st' ->. by eexists.
Qed.

Lemma C6_witness :
  ∃ resp st',
    generate_questions stub
      {| QuestionRequest.company := "Google";
         QuestionRequest.role := "SRE" |} startup = (Ok resp, st')
    ∧ ∃ d, json resp = Some d
           ∧ d !! "company" = Some "Google"
           ∧ d !! "role" = Some "SRE".
Proof.
  destruct (proj2 (C6_generate_questions_echoes_request stub
                     {| QuestionRequest.company := "Google";
                        QuestionRequest.role := "SRE" |} startup)
              _ _ eq_refl) as [resp Hrun].
  eexists resp, _. split; [exact Hrun |].
  exact (proj1 (C6_generate_questions_echoes_request stub
                  {| QuestionRequest.company := "Google";
                     QuestionRequest.role := "SRE" |} startup)
           resp _ Hrun).
Defined.


(** C8. The company profile table starts as exactly the four entries
    Google, Infosys, Microsoft and TCS.  No handler invocation changes
    it, whatever the request and whether the handler answers or raises;
    so after any sequence of requests served since startup the table
    still is the initial one. *)
Theorem C8_company_profiles_never_mutated (svc : Services) :
  (dom company_profiles : gset string)
  = {[ "Google"; "Infosys"; "Microsoft"; "TCS" ]}
  ∧ profiles startup = company_profiles
  ∧ (∀ e http st, profiles (dispatch svc e http st).2 = profiles st)
  ∧ (∀ rs, profiles (served svc rs) = company_profiles).
Proof.
  split_and!.
  - unfold company_profiles. rewrite !dom_insert_L, dom_singleton_L.
    set_solver.
  - reflexivity.
  - intros e http st. apply keeps_dispatch.
  - intros rs. unfold served.
    assert (Hgen : ∀ st, profiles (fold_left (serve svc) rs st) = profiles st).
    { induction rs as [| r rs IH]; intros st; [done |].
      simpl. rewrite IH. apply keeps_dispatch. }
    apply Hgen.
Qed.



Lemma EvalRequest_validate_missing (body : payload) :
  body !! "question" = None ∨ body !! "answer" = None ->
  ∃ missing, missing ≠ []
    ∧ EvalRequest.validate body = Raise (RequestValidationError missing).
Proof.
  unfold EvalRequest.validate, field.
  intros [H | H]; rewrite H;
    destruct (body !! "company"); try destruct (body !! "question");
    try destruct (body !! "answer");
    (eexists; split; [| reflexivity]; done).
Qed.

(** C10. A body for /evaluate-answer that leaves out question or answer
    is rejected by validation: the route raises the validation error,
    the handler body does not run, the process state is untouched and
    in particular no request reaches the completion provider.  A body
    that supplies question and answer is accepted, and a company it
    leaves out is "General". *)
Theorem C10_eval_request_requires_question_and_answer
    (svc : Services) (http : HttpRequest) (st : State) :
  (body http !! "question" = None ∨ body http !! "answer" = None ->
     (∃ missing, missing ≠ []
        ∧ POST_evaluate_answer svc http st
          = (Raise (RequestValidationError missing), st))
     ∧ chat_log (POST_evaluate_answer svc http st).2 = chat_log st)
  ∧ (∀ q a, body http !! "question" = Some q ->
            body http !! "answer" = Some a ->
       POST_evaluate_answer svc http st
       = evaluate_answer svc
           {| EvalRequest.company :=
                default "General" (body http !! "company");
              EvalRequest.question := q;
              EvalRequest.answer := a |} st).
Proof.
  unfold POST_evaluate_answer, post. rewrite run_bind. split.
  - intros (missing & Hne & ->)%EvalRequest_validate_missing.
    split; [| reflexivity]. by exists missing.
  - intros q a Hq Ha. unfold EvalRequest.validate, field.
    rewrite Hq, Ha. by destruct (body http !! "company").
Qed.

Lemma C10_witness :
  (body empty_request !! "question" = None
   ∨ body empty_request !! "answer" = None)
  ∧ chat_log (POST_evaluate_answer stub empty_request startup).2 = [].
Proof.
  assert (Hmissing : body empty_request !! "question" = None
                     ∨ body empty_request !! "answer" = None)
    by (left; reflexivity).
  split; [exact Hmissing |].
  exact (proj2 (proj1 (C10_eval_request_requires_question_and_answer
                         stub empty_request startup) Hmissing)).
Defined.

(** * Further properties of the module *)

(** ** Final states of the helper functions *)

Lemma capture_voice_text_run svc st :
  capture_voice_text svc st =
  match google_speech svc (microphone svc (captures st)) with
  | Recognized text =>
      (Ok text,
       {| profiles := profiles st;
          stdout := (stdout st ++ ["Speak now..."]) ++ ["You said: " +:+ text];
          captures := S (captures st); chat_log := chat_log st;
          tts_log := tts_log st |})
  | Unintelligible =>
      (Ok "Sorry, I could not understand.",
       {| profiles := profiles st; stdout := stdout st ++ ["Speak now..."];
          captures := S (captures st); chat_log := chat_log st;
          tts_log := tts_log st |})
  | Unreachable =>
      (Ok "Speech recognition service failed.",
       {| profiles := profiles st; stdout := stdout st ++ ["Speak now..."];
          captures := S (captures st); chat_log := chat_log st;
          tts_log := tts_log st |})
  end.
Proof.
  cbv [capture_voice_text try_except recognize_google listen print
       mbind M_bind mret M_ret raise captures].
  by destruct (google_speech svc _).
Qed.

Lemma ask_together_ai_state svc prompt st :
  (ask_together_ai svc prompt st).2
  = {| profiles := profiles st; stdout := stdout st; captures := captures st;
       chat_log := chat_log st ++ [user_turn svc prompt];
       tts_log := tts_log st |}.
Proof. by rewrite ask_together_ai_run. Qed.

Lemma text_to_audio_bytes_state svc text st :
  (text_to_audio_bytes svc text st).2
  = {| profiles := profiles st; stdout := stdout st; captures := captures st;
       chat_log := chat_log st; tts_log := tts_log st ++ [(text, "en")] |}.
Proof. by rewrite text_to_audio_bytes_run. Qed.

Lemma ask_ai_run svc request st :
  ask_ai svc request st =
  match capture_voice_text svc st with
  | (Ok voice_text, st1) =>
      match ask_together_ai svc (ask_prompt request voice_text) st1 with
      | (Ok ai_reply, st2) =>
          match text_to_audio_bytes svc ai_reply st2 with
          | (Ok _, st3) =>
              (Ok (Dict {[ "user_speech" := voice_text;
                           "ai_reply_text" := ai_reply;
                           "ai_reply_audio" := "/speak" ]}), st3)
          | (Raise e, st3) => (Raise e, st3)
          end
      | (Raise e, st2) => (Raise e, st2)
      end
  | (Raise e, st1) => (Raise e, st1)
  end.
Proof.
  unfold ask_ai. rewrite run_bind.
  destruct (capture_voice_text svc st) as [[voice_text | e] st1]; [| done].
  rewrite run_bind.
  destruct (ask_together_ai svc _ st1) as [[ai_reply | e] st2]; [| done].
  rewrite run_bind.
  by destruct (text_to_audio_bytes svc ai_reply st2) as [[buf | e] st3].
Qed.

(** Splits a run of a helper into its result and its final state, the
    latter replaced by its closed form. *)
Ltac split_run H :=
  match goal with
  | |- context [capture_voice_text ?svc ?st] =>
      let Hs := fresh "Hs" in
      pose proof (capture_voice_text_run svc st) as Hs;
      destruct (google_speech svc (microphone svc (captures st))) eqn:H;
      rewrite Hs; clear Hs
  | |- context [ask_together_ai ?svc ?p ?st] =>
      let Hs := fresh "Hs" in
      pose proof (ask_together_ai_state svc p st) as Hs;
      destruct (ask_together_ai svc p st) as [[? | ?] ?] eqn:H;
      simpl in Hs; subst
  | |- context [text_to_audio_bytes ?svc ?t ?st] =>
      let Hs := fresh "Hs" in
      pose proof (text_to_audio_bytes_state svc t st) as Hs;
      destruct (text_to_audio_bytes svc t st) as [[? | ?] ?] eqn:H;
      simpl in Hs; subst
  end.

(** ** Speech capture and synthesis *)

(** X1. Whatever the recogniser does, one call of speech capture takes
    exactly one utterance from the microphone, sends nothing to the
    completion provider or to the synthesiser, and prints "Speak now..."
    followed by "You said: ..." only when a text was recognised. *)
Theorem capture_voice_text_effects (svc : Services) (st : State) :
  let st' := (capture_voice_text svc st).2 in
  captures st' = S (captures st)
  ∧ chat_log st' = chat_log st
  ∧ tts_log st' = tts_log st
  ∧ stdout st'
    = stdout st
      ++ "Speak now..."
         :: match google_speech svc (microphone svc (captures st)) with
            | Recognized text => ["You said: " +:+ text]
            | Unintelligible | Unreachable => []
            end.
Proof.
  intros st'. subst st'. rewrite capture_voice_text_run.
  destruct (google_speech svc _); simpl; split_and!; try done.
  by rewrite <- app_assoc.
Qed.

(** X2. The caller of speech capture cannot tell a failed recognition
    from a speaker who said the words of the sentinel: both runs return
    the same string. *)
Theorem capture_sentinel_is_ambiguous
    (svc svc' : Services) (st st' : State) :
  google_speech svc (microphone svc (captures st)) = Unintelligible ->
  google_speech svc' (microphone svc' (captures st'))
  = Recognized "Sorry, I could not understand." ->
  (capture_voice_text svc st).1 = (capture_voice_text svc' st').1.
Proof.
  intros Hfail Hsaid. rewrite !capture_voice_text_run.
  by rewrite Hfail, Hsaid.
Qed.

Lemma capture_sentinel_is_ambiguous_witness :
  (capture_voice_text stub startup).1 = (capture_voice_text parrot startup).1.
Proof.
  exact (capture_sentinel_is_ambiguous stub parrot startup startup
           eq_refl eq_refl).
Defined.

(** X3. For every text, when the synthesiser returns audio the helper
    hands back a buffer rewound to its start whose content is exactly
    that audio, after one synthesis request for the text in language
    "en"; read without the rewind, the same buffer would yield nothing. *)
Theorem text_to_audio_bytes_rewound
    (svc : Services) (text : string) (st : State) (audio : list byte) :
  gtts svc (tts_log st) text "en" = Ok audio ->
  ∃ buf st',
    text_to_audio_bytes svc text st = (Ok buf, st')
    ∧ BytesIO.position buf = 0
    ∧ BytesIO.remaining buf = audio
    ∧ tts_log st' = tts_log st ++ [(text, "en")]
    ∧ BytesIO.remaining (BytesIO.write BytesIO.new audio) = [].
Proof.
  intros Haudio. rewrite text_to_audio_bytes_run, Haudio.
  eexists _, _. split_and!; try done.
  unfold BytesIO.remaining, BytesIO.write, BytesIO.new. simpl.
  rewrite drop_nil, app_nil_r. by rewrite drop_all.
Qed.

Lemma text_to_audio_bytes_rewound_witness :
  ∃ buf st',
    text_to_audio_bytes stub "Hello." startup = (Ok buf, st')
    ∧ BytesIO.position buf = 0
    ∧ BytesIO.remaining buf = [x49; x44; x33]
    ∧ tts_log st' = tts_log startup ++ [("Hello.", "en")]
    ∧ BytesIO.remaining (BytesIO.write BytesIO.new [x49; x44; x33]) = [].
Proof.
  exact (text_to_audio_bytes_rewound stub "Hello." startup [x49; x44; x33]
           eq_refl).
Defined.

(** ** The /ask handler *)


(** X5. When /ask answers, the text it sent to the synthesiser, once
    and in language "en", is the reply of the model that it returns
    under ai_reply_text; the response holds the three string fields and
    no audio. *)
Theorem ask_ai_synthesises_the_reply
    (svc : Services) (request : QuestionRequest.t) (st st' : State)
    (resp : Response) :
  ask_ai svc request st = (Ok resp, st') ->
  ∃ d ai_reply,
    resp = Dict d
    ∧ d !! "ai_reply_text" = Some ai_reply
    ∧ tts_log st' = tts_log st ++ [(ai_reply, "en")]
    ∧ (dom d : gset string)
      = {[ "user_speech"; "ai_reply_text"; "ai_reply_audio" ]}.
Proof.
  rewrite ask_ai_run.
  split_run Hheard; split_run Hasked; try done;
    split_run Hspoken; try done;
    intros [= <- <-]; eexists _, _;
    (split_and!; [reflexivity | reflexivity | reflexivity |]);
    rewrite !dom_insert_L, dom_singleton_L; set_solver.
Qed.

Lemma ask_ai_synthesises_the_reply_witness :
  ∃ d ai_reply,
    (POST_ask stub empty_request startup).1 = Ok (Dict d)
    ∧ d !! "ai_reply_text" = Some ai_reply
    ∧ tts_log (POST_ask stub empty_request startup).2 = [(ai_reply, "en")].
Proof.
  destruct (ask_ai_synthesises_the_reply stub
              {| QuestionRequest.company := "General";
                 QuestionRequest.role := "Engineer" |}
              startup (POST_ask stub empty_request startup).2
              (Dict {[ "user_speech" := "Sorry, I could not understand.";
                       "ai_reply_text" :=
                         "You are interviewing for Engineer at General. Question: Sorry, I could not understand.";
                       "ai_reply_audio" := "/speak" ]})
              eq_refl)
    as (d & ai_reply & Hresp & Hreply & Hlog & _).
  exists d, ai_reply. split_and!; [| exact Hreply | exact Hlog].
  rewrite <- Hresp. reflexivity.
Defined.



(** ** The two text handlers *)





Lemma append_assoc (a b c : string) : (a +:+ b) +:+ c = a +:+ b +:+ c.
Proof.
  induction a as [| x a IH]; [done |].
  change (String x ((a +:+ b) +:+ c) = String x (a +:+ b +:+ c)).
  by f_equal.
Qed.

(** X10. The evaluation prompt does not delimit its fields: moving the
    text "<line feed>Answer: " and what follows it from the end of the
    question to the start of the answer gives a request that
    /evaluate-answer treats exactly like the original. *)
Theorem evaluate_answer_does_not_delimit_fields
    (svc : Services) (st : State) (company x y z : string) :
  evaluate_answer svc
    {| EvalRequest.company := company;
       EvalRequest.question := x +:+ LF +:+ "Answer: " +:+ y;
       EvalRequest.answer := z |} st
  = evaluate_answer svc
      {| EvalRequest.company := company;
         EvalRequest.question := x;
         EvalRequest.answer := y +:+ LF +:+ "Answer: " +:+ z |} st.
Proof.
  rewrite !evaluate_answer_run. cbn [EvalRequest.company].
  assert (Hprompt : ∀ style,
    evaluate_prompt
      {| EvalRequest.company := company;
         EvalRequest.question := x +:+ LF +:+ "Answer: " +:+ y;
         EvalRequest.answer := z |} style
    = evaluate_prompt
        {| EvalRequest.company := company;
           EvalRequest.question := x;
           EvalRequest.answer := y +:+ LF +:+ "Answer: " +:+ z |} style).
  { intros style. unfold evaluate_prompt.
    cbn [EvalRequest.company EvalRequest.question EvalRequest.answer].
    do 5 f_equal. rewrite !append_assoc. reflexivity. }
  by rewrite Hprompt.
Qed.

(** ** What serving one request does to the outside world *)

Lemma grows_by_nothing {A} (l : list A) (P : A -> Prop) :
  ∃ t, l = l ++ t ∧ Forall P t ∧ length t = 0.
Proof. exists []. by rewrite app_nil_r. Qed.

Lemma grows_by_one {A} (l : list A) (P : A -> Prop) (a : A) :
  P a -> ∃ t, l ++ [a] = l ++ t ∧ Forall P t ∧ length t = 1.
Proof. intros Ha. exists [a]. split_and!; [done | by constructor | done]. Qed.

Lemma grows_by_at_most {A} (l : list A) (P : A -> Prop) (n : nat) :
  ∃ t, l = l ++ t ∧ Forall P t ∧ (length t ≤ n)%nat.
Proof. exists []. rewrite app_nil_r. split_and!; [done | done | simpl; lia]. Qed.

Lemma grows_by_at_most_one {A} (l : list A) (P : A -> Prop) (a : A) :
  P a -> ∃ t, l ++ [a] = l ++ t ∧ Forall P t ∧ (length t ≤ 1)%nat.
Proof.
  intros Ha. exists [a]. split_and!; [done | by constructor | simpl; lia].
Qed.

Lemma dispatch_effects svc e http st :
  let st' := (dispatch svc e http st).2 in
  (∃ sent, chat_log st' = chat_log st ++ sent
           ∧ Forall (λ r, ∃ prompt, r = user_turn svc prompt) sent
           ∧ length sent = if calls_completion (e, http) then 1 else 0)
  ∧ captures st' = (if listens (e, http) then S (captures st) else captures st)
  ∧ (∃ spoken, tts_log st' = tts_log st ++ spoken
               ∧ Forall (λ s, s.2 = "en") spoken
               ∧ (length spoken ≤ if may_synthesise (e, http) then 1 else 0)%nat).
Proof.
  intros st'. subst st'. destruct e; cbn [dispatch].
  - unfold POST_ask. rewrite post_QuestionRequest, ask_ai_run.
    split_run Hheard; split_run Hasked; simpl;
      try split_run Hspoken; simpl;
      (split_and!;
       [ apply grows_by_one; by eexists
       | done
       | first [ apply grows_by_at_most | by apply grows_by_at_most_one ] ]).
  - unfold GET_speak, get, speak. rewrite run_bind.
    split_run Hspoken; simpl;
      (split_and!;
       [ apply grows_by_nothing | done | by apply grows_by_at_most_one ]).
  - unfold POST_evaluate_answer, post, calls_completion. rewrite run_bind.
    cbn [fst snd lift].
    destruct (EvalRequest.validate (body http)) as [req | err].
    + rewrite evaluate_answer_state, ask_together_ai_state. simpl.
      split_and!;
        [apply grows_by_one; by eexists | done | apply grows_by_at_most].
    + simpl.
      split_and!; [apply grows_by_nothing | done | apply grows_by_at_most].
  - unfold POST_generate_questions.
    rewrite post_QuestionRequest, generate_questions_state,
      ask_together_ai_state. simpl.
    split_and!;
      [apply grows_by_one; by eexists | done | apply grows_by_at_most].
Qed.

Lemma serve_effects svc st r :
  (∃ sent, chat_log (serve svc st r) = chat_log st ++ sent
           ∧ Forall (λ q, ∃ prompt, q = user_turn svc prompt) sent
           ∧ length sent = if calls_completion r then 1 else 0)
  ∧ captures (serve svc st r)
    = (if listens r then S (captures st) else captures st)
  ∧ (∃ spoken, tts_log (serve svc st r) = tts_log st ++ spoken
               ∧ Forall (λ s, s.2 = "en") spoken
               ∧ (length spoken ≤ if may_synthesise r then 1 else 0)%nat).
Proof. destruct r as [e http]. apply dispatch_effects. Qed.

(** ** Sessions *)

(** X11. Every request that has reached the completion provider since
    startup, over any sequence of requests served, is a single-turn
    conversation: one message with role "user", under the configured
    model and API key.  No handler ever sends a system message or an
    earlier exchange along. *)
Theorem every_completion_request_is_one_user_turn
    (svc : Services) (rs : list (endpoint * HttpRequest)) :
  Forall
    (λ q, api_key q = TOGETHER_API_KEY svc
          ∧ model q = MODEL_NAME svc
          ∧ ∃ prompt,
              messages q = [ {[ "role" := "user"; "content" := prompt ]} ])
    (chat_log (served svc rs)).
Proof.
  unfold served.
  assert (Hgen : ∀ st,
    Forall (λ q, ∃ prompt, q = user_turn svc prompt) (chat_log st) ->
    Forall (λ q, ∃ prompt, q = user_turn svc prompt)
      (chat_log (fold_left (serve svc) rs st))).
  { induction rs as [| r rs IH]; intros st Hst; [done |].
    simpl. apply IH.
    destruct (serve_effects svc st r) as ((sent & -> & Hsent & _) & _).
    by apply Forall_app. }
  eapply Forall_impl; [apply Hgen; by constructor |].
  intros q [prompt ->]. split_and!; [done | done | by exists prompt].
Qed.


(** X13. Each route reaches only the providers it needs.  /speak sends
    nothing to the completion provider, does not listen and prints
    nothing; /evaluate-answer and /generate-questions do not listen,
    print nothing and synthesise nothing. *)
Theorem routes_reach_only_their_providers
    (svc : Services) (http : HttpRequest) (st : State) :
  (chat_log (GET_speak svc http st).2 = chat_log st
   ∧ captures (GET_speak svc http st).2 = captures st
   ∧ stdout (GET_speak svc http st).2 = stdout st)
  ∧ (captures (POST_evaluate_answer svc http st).2 = captures st
     ∧ stdout (POST_evaluate_answer svc http st).2 = stdout st
     ∧ tts_log (POST_evaluate_answer svc http st).2 = tts_log st)
  ∧ (captures (POST_generate_questions svc http st).2 = captures st
     ∧ stdout (POST_generate_questions svc http st).2 = stdout st
     ∧ tts_log (POST_generate_questions svc http st).2 = tts_log st).
Proof.
  split_and!.
  1-3: unfold GET_speak, get, speak; rewrite run_bind;
       by split_run Hspoken.
  1-3: unfold POST_evaluate_answer, post; rewrite run_bind; cbn [lift];
       destruct (EvalRequest.validate (body http)) as [req | err];
       [by rewrite evaluate_answer_state, ask_together_ai_state | done].
  all: unfold POST_generate_questions;
       by rewrite post_QuestionRequest, generate_questions_state,
            ask_together_ai_state.
Qed.

(** ** Prompt fidelity of the other handlers *)

Lemma contains_self (x : string) : contains x x = true.
Proof.
  rewrite contains_unfold.
  assert (Hprefix : String.prefix x x = true).
  { induction x as [| a x IH]; [done |]. simpl. by destruct (ascii_dec a a). }
  by rewrite Hprefix.
Qed.

(** X14. When the completion client echoes its prompt,
    /generate-questions answers, and the text under questions contains
    verbatim the role and the company of the request and the style the
    handler looked up for that company. *)
Theorem generate_questions_prompt_names_role_company_style
    (svc : Services) (req : QuestionRequest.t) (st : State) :
  echoes svc ->
  ∃ questions st',
    generate_questions svc req st
    = (Ok (JSONResponse {[ "company" := QuestionRequest.company req;
                           "role" := QuestionRequest.role req;
                           "questions" := questions ]}), st')
    ∧ contains questions (QuestionRequest.role req) = true
    ∧ contains questions (QuestionRequest.company req) = true
    ∧ contains questions
        (dict_get (profiles st) (QuestionRequest.company req)
           "Balanced technical + behavioral.") = true.
Proof.
  intros Hecho. rewrite generate_questions_run.
  set (style := dict_get _ _ _).
  specialize (Hecho (questions_prompt req style) st).
  destruct (ask_together_ai svc _ st) as [[questions | e] st']; [| done].
  simpl in Hecho. injection Hecho as ->.
  eexists _, _. split; [reflexivity |].
  unfold questions_prompt. split_and!.
  - do 1 apply contains_later. apply contains_here.
  - do 3 apply contains_later. apply contains_here.
  - do 6 apply contains_later. apply contains_here.
Qed.

Lemma generate_questions_prompt_names_role_company_style_witness :
  ∃ questions st',
    generate_questions stub
      {| QuestionRequest.company := "Microsoft";
         QuestionRequest.role := "PM" |} startup
    = (Ok (JSONResponse {[ "company" := "Microsoft";
                           "role" := "PM";
                           "questions" := questions ]}), st')
    ∧ contains questions "PM" = true
    ∧ contains questions "Microsoft" = true
    ∧ contains questions
        "System design, product sense, and engineering trade-offs." = true.
Proof.
  assert (Hecho : echoes stub) by (intros prompt st; reflexivity).
  exact (generate_questions_prompt_names_role_company_style stub
           {| QuestionRequest.company := "Microsoft";
              QuestionRequest.role := "PM" |} startup Hecho).
Defined.

(** X15. When the completion client echoes its prompt and the
    synthesiser answers, /ask answers, and its ai_reply_text contains
    verbatim the role and the company of the request and the string it
    returns as user_speech. *)
Theorem ask_ai_prompt_names_role_company_speech
    (svc : Services) (request : QuestionRequest.t) (st : State) :
  echoes svc ->
  responsive svc ->
  ∃ voice_text ai_reply st',
    ask_ai svc request st
    = (Ok (Dict {[ "user_speech" := voice_text;
                   "ai_reply_text" := ai_reply;
                   "ai_reply_audio" := "/speak" ]}), st')
    ∧ contains ai_reply (QuestionRequest.role request) = true
    ∧ contains ai_reply (QuestionRequest.company request) = true
    ∧ contains ai_reply voice_text = true.
Proof.
  intros Hecho Hsvc. rewrite ask_ai_run.
  destruct (capture_voice_text_returns svc st) as [st1 ->].
  set (voice_text := match google_speech svc _ with
                     | Recognized text => text
                     | Unintelligible => _
                     | Unreachable => _
                     end).
  specialize (Hecho (ask_prompt request voice_text) st1).
  destruct (ask_together_ai svc _ st1) as [[ai_reply | e] st2]; [| done].
  simpl in Hecho. injection Hecho as ->.
  destruct (text_to_audio_bytes_responsive svc
              (ask_prompt request voice_text) st2 Hsvc) as (buf & st3 & ->).
  eexists _, _, _. split; [reflexivity |].
  unfold ask_prompt. split_and!.
  - do 1 apply contains_later. apply contains_here.
  - do 3 apply contains_later. apply contains_here.
  - do 5 apply contains_later. apply contains_self.
Qed.

Lemma ask_ai_prompt_names_role_company_speech_witness :
  ∃ voice_text ai_reply st',
    ask_ai stub {| QuestionRequest.company := "Google";
                   QuestionRequest.role := "SRE" |} startup
    = (Ok (Dict {[ "user_speech" := voice_text;
                   "ai_reply_text" := ai_reply;
                   "ai_reply_audio" := "/speak" ]}), st')
    ∧ contains ai_reply "SRE" = true
    ∧ contains ai_reply "Google" = true
    ∧ contains ai_reply voice_text = true.
Proof.
  assert (Hecho : echoes stub) by (intros prompt st; reflexivity).
  exact (ask_ai_prompt_names_role_company_speech stub
           {| QuestionRequest.company := "Google";
              QuestionRequest.role := "SRE" |} startup
           Hecho stub_responsive).
Defined.
